(** * study_adk: the dad-joke tool and the email output schema

    Two modules of the repository are embedded here:

    - [3-litellm-agent/litellm_agent/agent.py]: module initialisation
      (imports, the [LiteLlm] model built from the [OPENAI_KEY] environment
      variable, the [Agent]) and the tool function [get_dad_joke];
    - [4-structured-outputs/email_agent/agent.py]: the pydantic model
      [EmailContent] used as the agent's output schema.

    Python is embedded shallowly.  Module-level and function-level code runs
    in a state-and-exception monad over the interpreter state (process
    environment, module namespace, state of the random generator); a dict
    with string keys is a [gmap string _]; a list is a [list]. *)

From stdpp Require Import gmap strings list fin_maps.
From Stdlib Require Import ZArith QArith Ascii.

#[local] Set Warnings "-register-all".
#[local] Open Scope string_scope.
#[local] Open Scope nat_scope.

(** ** Python values and exceptions *)

Module Py.

(** A computation returns a value or raises. *)
Inductive result (E A : Type) :=
| Return (a : A)
| Raise (e : E).
Arguments Return {E A} a.
Arguments Raise {E A} e.

(** The exceptions the interpreter can raise in the embedded code. *)
Inductive exn :=
| NameError (name : string)
| AttributeError (attr : string)
| TypeError
| IndexError.

(** [LiteLlm(model=..., **kwargs)]: the wrapper keeps the model name and its
    keyword arguments for the later completion call and inspects neither.
    [api_key] is the only keyword the module passes; [None] is Python's
    [None]. *)
Record LiteLlm := {
  llm_model : string;
  api_key : option string
}.

(** [Agent(name=..., model=..., description=..., instruction=..., tools=...)];
    a tool is recorded by the name of its function. *)
Record Agent := {
  name : string;
  model : LiteLlm;
  description : string;
  instruction : string;
  tools : list string
}.

(** The values bound in a module namespace or built by the tool. *)
Inductive pyval :=
| VNone
| VStr (s : string)
| VList (l : list pyval)
| VModule (name : string)
| VClass (name : string)
| VFunction (name : string)
| VLiteLlm (m : LiteLlm)
| VAgent (a : Agent).

(** Whether a value is the module object called [name]. *)
Definition is_module (name : string) (v : pyval) : bool :=
  match v with
  | VModule n => String.eqb n name
  | _ => false
  end.

End Py.

Import Py.

(** ** 3-litellm-agent/litellm_agent/agent.py *)

Module LitellmAgent.

Section WithRandom.

(** The generator behind the [random] module: its state, and the draw
    [_randbelow n] that [random.choice] makes. *)
Context {Rng : Type}.
Variable randbelow : nat -> Rng -> nat * Rng.

(** Interpreter state: [os.environ], the module's global namespace, and the
    generator state. *)
Record State := {
  environ : gmap string string;
  globals : gmap string pyval;
  rng : Rng
}.

Definition M (A : Type) : Type := State -> result exn A * State.

Definition ret {A} (a : A) : M A := fun st => (Return a, st).

Definition raise {A} (e : exn) : M A := fun st => (Raise e, st).

Definition bind {A B} (m : M A) (k : A -> M B) : M B :=
  fun st =>
    match m st with
    | (Return a, st') => k a st'
    | (Raise e, st') => (Raise e, st')
    end.

#[global] Instance M_ret : MRet M := @ret.
#[global] Instance M_bind : MBind M := fun A B k m => bind m k.

(** [name = value] at module level. *)
Definition store_global (x : string) (v : pyval) : M unit :=
  fun st =>
    (Return tt,
     {| environ := environ st; globals := <[x := v]> (globals st); rng := rng st |}).

(** Reading a global name; an unbound name is a [NameError]. *)
Definition load_global (x : string) : M pyval :=
  fun st =>
    match globals st !! x with
    | Some v => (Return v, st)
    | None => (Raise (NameError x), st)
    end.

(** [os.getenv(key)]: the variable's value, [None] when it is unset. *)
Definition os_getenv (key : string) : M (option string) :=
  fun st => (Return (environ st !! key), st).

(** [seq[i]] on a list. *)
Definition getitem {A} (seq : list A) (i : nat) : result exn A :=
  match seq !! i with
  | Some x => Return x
  | None => Raise IndexError
  end.

(** [random.choice(seq)]: [IndexError] on an empty sequence, otherwise
    [seq[_randbelow(len(seq))]]. *)
Definition random_choice {A} (seq : list A) : M A :=
  fun st =>
    match length seq with
    | 0 => (Raise IndexError, st)
    | S _ as n =>
        let '(i, g) := randbelow n (rng st) in
        (getitem seq i,
         {| environ := environ st; globals := globals st; rng := g |})
    end.

(** The list literal of [get_dad_joke]; the function binds it to its local
    name [jokes] each time it runs. *)
Definition jokes : list string := [
  "Why did the chicken cross the road? To get to the other side!";
  "Why don't scientists trust atoms? Because they make up everything!";
  "Why did the scarecrow win an award? Because he was outstanding in his field!";
  "Why don't skeletons fight each other? They don't have the guts!";
  "Why did the bicycle fall over? Because it was two-tired!"
].

(** [def get_dad_joke()]: builds the local list and returns
    [random.choice(jokes)]; [random] is looked up in the module namespace. *)
Definition get_dad_joke : M pyval :=
  let jokes := VStr <$> jokes in
  random ← load_global "random";
  if is_module "random" random then random_choice jokes
  else raise (AttributeError "choice").

(** The module body, statement by statement. *)
Definition module_body : M unit :=
  store_global "os" (VModule "os");;
  store_global "random" (VModule "random");;
  store_global "Agent" (VClass "Agent");;
  store_global "LiteLlm" (VClass "LiteLlm");;
  (* model= LiteLlm(model= "gpt-4o-mini", api_key= os.getenv("OPENAI_KEY")) *)
  load_global "LiteLlm";;
  load_global "os";;
  key ← os_getenv "OPENAI_KEY";
  store_global "model"
    (VLiteLlm {| llm_model := "gpt-4o-mini"; api_key := key |});;
  (* def get_dad_joke(): ... *)
  store_global "get_dad_joke" (VFunction "get_dad_joke");;
  (* root_agent= Agent(...) *)
  load_global "Agent";;
  m ← load_global "model";
  load_global "get_dad_joke";;
  match m with
  | VLiteLlm m =>
      store_global "root_agent"
        (VAgent {| name := "litellm_agent";
                   model := m;
                   description := "Dad Joke Agent";
                   instruction := "
  You are a helpful assistant that can tell dad jokes.
  Only use the tool 'get_dad_joke' to tell dad jokes.
  ";
                   tools := ["get_dad_joke"] |})
  | _ => raise TypeError
  end.

(** Importing the module: the body runs in a namespace that holds none of
    the module's own names.  The names the interpreter itself puts there
    beforehand ([__name__], [__builtins__], ...) are not modelled: no
    statement of the module reads or writes them. *)
Definition module_init (env : gmap string string) (g : Rng)
  : result exn unit * State :=
  module_body {| environ := env; globals := ∅; rng := g |}.

(** [n] successive calls of the tool, with the values they return. *)
Fixpoint calls (n : nat) : M (list pyval) :=
  match n with
  | 0 => ret []
  | S n' =>
      v ← get_dad_joke;
      vs ← calls n';
      ret (v :: vs)
  end.

(** The states the interpreter goes through: after the import, and after
    each call of the tool, whatever it returned. *)
Inductive reachable : State -> Prop :=
| reachable_init env g st :
    module_init env g = (Return tt, st) -> reachable st
| reachable_call st r st' :
    reachable st -> get_dad_joke st = (r, st') -> reachable st'.

(** A value is a module-level constant when a global name is bound to it. *)
Definition module_level (st : State) (v : pyval) : Prop :=
  exists x, globals st !! x = Some v.

(** What the tool returns when the generator draws index [i]. *)
Definition joke_at (i : nat) : result exn pyval := getitem (VStr <$> jokes) i.

(** The indices [n] successive draws below [bound] give from the generator
    state [g], and the generator state they leave. *)
Fixpoint draws (bound n : nat) (g : Rng) : list nat :=
  match n with
  | 0 => []
  | S n' => fst (randbelow bound g) :: draws bound n' (snd (randbelow bound g))
  end.

Fixpoint advance (bound n : nat) (g : Rng) : Rng :=
  match n with
  | 0 => g
  | S n' => advance bound n' (snd (randbelow bound g))
  end.

End WithRandom.

(** The random source as a choice of index: the generator that draws [d],
    whatever bound it is asked. *)
Definition choose (d : nat) (n : nat) (g : unit) : nat * unit := (d, g).

(** What [get_dad_joke] returns, called after the import, when the random
    source chooses the index [d]. *)
Definition get_dad_joke_at (d : nat) : result exn pyval :=
  fst (get_dad_joke (choose d) (snd (module_init ∅ tt))).

(** Whether a call has returned the joke [j]. *)
Definition returns_joke (j : string) (r : result exn pyval) : bool :=
  match r with
  | Return (VStr s) => String.eqb s j
  | _ => false
  end.

(** The number of choices of index below [len(jokes)] on which
    [get_dad_joke] returns the joke [j], and the chance of [j] when every
    choice is equally likely. *)
Definition draws_giving (j : string) : nat :=
  length (List.filter (fun d => returns_joke j (get_dad_joke_at d))
            (seq 0 (length jokes))).

Definition probability (j : string) : Q :=
  Z.of_nat (draws_giving j) # Pos.of_nat (length jokes).

(** A generator for closed examples: its draws go round the indices in
    turn. *)
Definition round_robin (n : nat) (g : nat) : nat * nat := (g mod n, S g).

(** The state right after the import, with no environment variable set. *)
Definition imported : @State nat := snd (module_init ∅ 0).

End LitellmAgent.

(** ** pydantic, as the output schema uses it

    [EmailContent] is declared in the repository; what validates a value
    against it and what serialises it is pydantic's [BaseModel], which is not
    part of the repository.  That machinery is modelled here after section
    4.2 of the specification (a schema that can be serialised, a validation
    step that fails naming the missing or mismatched field, named
    accessors), in the shape pydantic 2 gives it under the default model
    configuration, which the declaration leaves in place. *)

Module Pydantic.

(** JSON values: what a generation hands to validation, and what a schema
    is serialised to.  Numbers are the integers. *)
Inductive json :=
| JNull
| JBool (b : bool)
| JInt (z : Z)
| JStr (s : string)
| JArr (l : list json)
| JObj (m : gmap string json).

(** The annotations a field of the repository carries. *)
Inductive pytype :=
| str.

(** What a field declaration [x: t = Field(default, description=...)]
    records.  [default = None] stands for the ellipsis, which makes the
    field required. *)
Record FieldInfo := {
  annotation : pytype;
  default : option json;
  description : option string
}.

Definition Field (default : option json) (description : string) (annotation : pytype)
  : FieldInfo :=
  {| annotation := annotation; default := default; description := Some description |}.

(** A model class: its name and its fields in declaration order. *)
Record ModelClass := {
  cls_name : string;
  model_fields : list (string * FieldInfo)
}.

(** A validated instance: its class and attribute values. *)
Record BaseModel := {
  instance_of : string;
  attributes : gmap string json
}.

Inductive ErrorType :=
| missing
| string_type
| model_type.

(** One line of a validation error: its kind, the field it names, and the
    offending input. *)
Record ErrorDetails := {
  type : ErrorType;
  loc : list string;
  input : json
}.

Record ValidationError := {
  title : string;
  errors : list ErrorDetails
}.

(** Modelled from the spec: the check of one field, which pydantic makes.
    A field must be a string to validate: a [str] field takes a JSON string
    and nothing else, with no constraint on length or content. *)
Definition validate_type (t : pytype) (v : json) : result ErrorType json :=
  match t, v with
  | str, JStr s => Return (JStr s)
  | str, _ => Raise string_type
  end.

(** Modelled from the spec: the validation step over the declared fields,
    which pydantic makes.  The fields are looked up in declaration order
    among the keys of the input object; a required field that is absent and
    a field of the wrong shape each give an error line naming the field, and
    every line is collected.  A key that is no field of the model is never
    looked at. *)
Fixpoint validate_fields (fields : list (string * FieldInfo)) (data : gmap string json)
  : list ErrorDetails * gmap string json :=
  match fields with
  | [] => ([], ∅)
  | (x, info) :: rest =>
      let '(errs, values) := validate_fields rest data in
      match data !! x with
      | Some v =>
          match validate_type (annotation info) v with
          | Return v' => (errs, <[x := v']> values)
          | Raise e => ({| type := e; loc := [x]; input := v |} :: errs, values)
          end
      | None =>
          match default info with
          | Some d => (errs, <[x := d]> values)
          | None =>
              ({| type := missing; loc := [x]; input := JObj data |} :: errs, values)
          end
      end
  end.

(** Modelled from the spec: validation of a candidate value (pydantic's
    [cls.model_validate_json], past the parsing): either the instance, or
    the violation with the collected error lines. *)
Definition model_validate (cls : ModelClass) (v : json) : result ValidationError BaseModel :=
  match v with
  | JObj data =>
      match validate_fields (model_fields cls) data with
      | ([], values) =>
          Return {| instance_of := cls_name cls; attributes := values |}
      | (errs, _) => Raise {| title := cls_name cls; errors := errs |}
      end
  | _ =>
      Raise {| title := cls_name cls;
               errors := [{| type := model_type; loc := []; input := v |}] |}
  end.

(** Modelled from the spec: the named accessor of a validated instance
    (attribute access on a pydantic model). *)
Definition getattr (m : BaseModel) (x : string) : option json :=
  attributes m !! x.

(** [str.title()]: a letter that starts a run of letters is upper-cased,
    the other letters are lower-cased. *)
Definition is_lower (c : ascii) : bool :=
  (97 <=? nat_of_ascii c) && (nat_of_ascii c <=? 122).

Definition is_upper (c : ascii) : bool :=
  (65 <=? nat_of_ascii c) && (nat_of_ascii c <=? 90).

Fixpoint str_title (previous_is_cased : bool) (s : string) : string :=
  match s with
  | EmptyString => EmptyString
  | String c s' =>
      if is_lower c then
        String (if previous_is_cased then c else ascii_of_nat (nat_of_ascii c - 32))
               (str_title true s')
      else if is_upper c then
        String (if previous_is_cased then ascii_of_nat (nat_of_ascii c + 32) else c)
               (str_title true s')
      else String c (str_title false s')
  end.

(** [s.replace('_', ' ')]. *)
Fixpoint underscores_to_spaces (s : string) : string :=
  match s with
  | EmptyString => EmptyString
  | String c s' =>
      String (if Ascii.eqb c "_" then " "%char else c) (underscores_to_spaces s')
  end.

(** [s.strip()]: white space is removed at both ends. *)
Definition is_space (c : ascii) : bool :=
  ((9 <=? nat_of_ascii c) && (nat_of_ascii c <=? 13))
  || ((28 <=? nat_of_ascii c) && (nat_of_ascii c <=? 32)).

Fixpoint lstrip (s : string) : string :=
  match s with
  | EmptyString => EmptyString
  | String c s' => if is_space c then lstrip s' else s
  end.

Fixpoint rstrip (s : string) : string :=
  match s with
  | EmptyString => EmptyString
  | String c s' =>
      match rstrip s' with
      | EmptyString => if is_space c then EmptyString else String c EmptyString
      | r => String c r
      end
  end.

Definition str_strip (s : string) : string := rstrip (lstrip s).

(** The title a field gets in the schema when none is given:
    [x.title().replace('_', ' ').strip()]. *)
Definition field_title (x : string) : string :=
  str_strip (underscores_to_spaces (str_title false x)).

Definition type_schema (t : pytype) : gmap string json :=
  match t with
  | str => {[ "type" := JStr "string" ]}
  end.

(** An optional key of a schema object. *)
Definition with_key (k : string) (v : option json) (m : gmap string json)
  : gmap string json :=
  match v with
  | Some j => <[k := j]> m
  | None => m
  end.

(** Modelled from the spec: the descriptor of one field in the serialised
    schema, laid out as pydantic's JSON Schema. *)
Definition field_schema (x : string) (info : FieldInfo) : json :=
  JObj (with_key "description" (JStr <$> description info)
         (with_key "default" (default info)
           (<["title" := JStr (field_title x)]> (type_schema (annotation info))))).

Definition required_fields (fields : list (string * FieldInfo)) : list string :=
  fst <$> filter (fun f => default (snd f) = None) fields.

(** Modelled from the spec: the serialisation of the schema to its
    structural descriptor (pydantic's [cls.model_json_schema()]): the JSON
    Schema object of the model. *)
Definition model_json_schema (cls : ModelClass) : json :=
  let properties :=
    list_to_map ((fun f => (fst f, field_schema (fst f) (snd f))) <$> model_fields cls) in
  let required :=
    match required_fields (model_fields cls) with
    | [] => None
    | xs => Some (JArr (JStr <$> xs))
    end in
  JObj (with_key "required" required
         (<["properties" := JObj properties]>
           (<["title" := JStr (cls_name cls)]>
             {[ "type" := JStr "object" ]}))).

(** The [properties] of a schema object: the descriptors of its fields,
    by name. *)
Definition properties_of (schema : json) : gmap string json :=
  match schema with
  | JObj m =>
      match m !! "properties" with
      | Some (JObj p) => p
      | _ => ∅
      end
  | _ => ∅
  end.

(** The kind and the field of an error line, without the input it quotes. *)
Definition error_key (e : ErrorDetails) : ErrorType * list string :=
  (type e, loc e).

End Pydantic.

Module EmailAgent.
Import Pydantic.

(** [class EmailContent(BaseModel)]. *)
Definition EmailContent : ModelClass :=
  {| cls_name := "EmailContent";
     model_fields :=
       [ ("subject", Field None "The subject of the email" str);
         ("body", Field None "The body of the email" str) ] |}.

(** The two accessors of an instance. *)
Definition subject (m : BaseModel) : option json := getattr m "subject".
Definition body (m : BaseModel) : option json := getattr m "body".

End EmailAgent.

(** ** Properties of the dad-joke tool *)

Module LitellmAgentProofs.
Import LitellmAgent.

Section WithRandom.

(** The generator, under the contract of [_randbelow]: a draw stays below
    a positive bound. *)
Context {Rng : Type}.
Variable randbelow : nat -> Rng -> nat * Rng.
Hypothesis randbelow_lt : forall n g, 0 < n -> fst (randbelow n g) < n.

(** *** The import *)

(** The namespace the import leaves behind, given what [os.getenv] found. *)
Lemma module_init_eq (env : gmap string string) (g : Rng) :
  exists gl,
    module_init env g = (Return tt, {| environ := env; globals := gl; rng := g |})
    /\ gl !! "random" = Some (VModule "random")
    /\ gl !! "model"
       = Some (VLiteLlm {| llm_model := "gpt-4o-mini";
                           api_key := env !! "OPENAI_KEY" |})
    /\ (exists a, gl !! "root_agent" = Some (VAgent a)
                  /\ model a = {| llm_model := "gpt-4o-mini";
                                  api_key := env !! "OPENAI_KEY" |})
    /\ forall x l, gl !! x <> Some (VList l).
Proof.
  eexists. split; [reflexivity|].
  split; [reflexivity|]. split; [reflexivity|].
  split; [eexists; split; reflexivity|].
  intros x l.
  repeat (cbn [globals environ rng];
          rewrite lookup_insert; case_decide; [discriminate|]).
  cbn [globals]. rewrite lookup_empty. discriminate.
Qed.

(** *** One call of the tool *)

(** A call, failed or not, touches neither the namespace nor the
    environment. *)
Lemma get_dad_joke_frame st r st' :
  get_dad_joke randbelow st = (r, st') ->
  globals st' = globals st /\ environ st' = environ st.
Proof.
  unfold get_dad_joke, mbind, M_bind, bind, load_global, random_choice, raise.
  destruct (globals st !! "random") as [v|]; [|by intros [= _ <-]].
  destruct (is_module "random" v); [|by intros [= _ <-]].
  rewrite length_fmap. cbn [length jokes].
  destruct (randbelow 5 (rng st)) as [i g'].
  by intros [= _ <-].
Qed.

Lemma reachable_globals st :
  reachable randbelow st ->
  globals st !! "random" = Some (VModule "random")
  /\ forall x l, globals st !! x <> Some (VList l).
Proof.
  induction 1 as [env g st Hinit | st r st' _ IH Hcall].
  - destruct (module_init_eq env g) as (gl & Heq & Hrandom & _ & _ & Hlist).
    rewrite Heq in Hinit. injection Hinit as <-. by split.
  - apply get_dad_joke_frame in Hcall as [-> _]. exact IH.
Qed.

(** In a reachable state the call is [jokes[i]] for the index [i] the
    generator draws below [len(jokes)]; only the generator moves. *)
Lemma get_dad_joke_eq st :
  reachable randbelow st ->
  get_dad_joke randbelow st
  = (joke_at (fst (randbelow (length jokes) (rng st))),
     {| environ := environ st;
        globals := globals st;
        rng := snd (randbelow (length jokes) (rng st)) |}).
Proof.
  intros [Hrandom _]%reachable_globals.
  unfold get_dad_joke, mbind, M_bind, bind, load_global, random_choice.
  rewrite Hrandom. cbn [is_module String.eqb]. rewrite length_fmap.
  cbn [length jokes]. simpl.
  by destruct (randbelow 5 (rng st)) as [i g'].
Qed.

(** Every index below the length holds a joke. *)
Lemma joke_at_lt i :
  i < length jokes ->
  exists j, joke_at i = Return (VStr j) /\ jokes !! i = Some j.
Proof.
  intros Hi. destruct (lookup_lt_is_Some_2 jokes i Hi) as [j Hj].
  exists j. split; [|done].
  unfold joke_at, getitem. by rewrite list_lookup_fmap, Hj.
Qed.

Lemma get_dad_joke_returns st :
  reachable randbelow st ->
  exists j st', get_dad_joke randbelow st = (Return (VStr j), st') /\ j ∈ jokes.
Proof.
  intros Hst. rewrite (get_dad_joke_eq st Hst).
  destruct (joke_at_lt (fst (randbelow (length jokes) (rng st)))) as (j & -> & Hj).
  { apply randbelow_lt. cbn. lia. }
  eexists j, _. split; [done|]. by eapply list_elem_of_lookup_2.
Qed.

Lemma jokes_NoDup : NoDup jokes.
Proof. apply (bool_decide_unpack _). by vm_compute. Qed.

(** *** Runs of calls *)

(** C1: however many times the tool is called, each call returns a string
    of the list of five distinct jokes written in the function body. *)
Theorem get_dad_joke_membership :
  length jokes = 5 /\ NoDup jokes /\
  forall n st,
    reachable randbelow st ->
    exists vs st',
      calls randbelow n st = (Return vs, st')
      /\ length vs = n
      /\ Forall (fun v => exists j, v = VStr j /\ j ∈ jokes) vs.
Proof.
  split; [reflexivity|]. split; [exact jokes_NoDup|].
  induction n as [|n IH]; intros st Hst.
  - by exists [], st.
  - destruct (get_dad_joke_returns st Hst) as (j & st1 & Hcall & Hj).
    destruct (IH st1 (reachable_call _ _ _ _ Hst Hcall)) as (vs & st2 & Hrest & Hlen & Hall).
    exists (VStr j :: vs), st2. split; [|split].
    + cbn [calls]. unfold mbind, M_bind, bind. by rewrite Hcall, Hrest.
    + cbn. by rewrite Hlen.
    + constructor; [by exists j|done].
Qed.

(** C6: the list is not empty, and in every state the interpreter can be in
    a call returns a string: it never raises and never returns [None]. *)
Theorem get_dad_joke_no_failure :
  jokes <> [] /\
  forall st,
    reachable randbelow st ->
    (exists j st', get_dad_joke randbelow st = (Return (VStr j), st'))
    /\ (forall e st', get_dad_joke randbelow st <> (Raise e, st'))
    /\ (forall st', get_dad_joke randbelow st <> (Return VNone, st')).
Proof.
  split; [discriminate|]. intros st Hst.
  destruct (get_dad_joke_returns st Hst) as (j & st1 & Hcall & _).
  rewrite Hcall. split; [by exists j, st1|]. split; intros; discriminate.
Qed.

(** C7, as the code has it: no module-level name is ever bound to the joke
    list; each call takes its joke from the same five literals, whatever
    ran before, and leaves the module namespace and the environment as they
    were. *)
Theorem jokes_local_to_call st :
  reachable randbelow st ->
  ~ module_level st (VList (VStr <$> jokes))
  /\ exists i j st',
       jokes !! i = Some j
       /\ get_dad_joke randbelow st = (Return (VStr j), st')
       /\ globals st' = globals st
       /\ environ st' = environ st.
Proof.
  intros Hst. split.
  - intros [x Hx]. by apply (proj2 (reachable_globals st Hst) x) in Hx.
  - rewrite (get_dad_joke_eq st Hst).
    set (i := fst (randbelow (length jokes) (rng st))).
    destruct (joke_at_lt i) as (j & -> & Hj).
    { apply randbelow_lt. cbn. lia. }
    exists i, j. eexists. by repeat split.
Qed.

(** C9: with [OPENAI_KEY] unset, [os.getenv] gives [None], the import runs
    to its end without raising, and the model it binds, also inside the
    agent, carries [api_key = None]. *)
Theorem module_init_key_unset (env : gmap string string) (g : Rng) :
  env !! "OPENAI_KEY" = None ->
  (forall st : @State Rng,
     environ st = env -> os_getenv "OPENAI_KEY" st = (Return None, st))
  /\ exists st,
       module_init env g = (Return tt, st)
       /\ globals st !! "model"
          = Some (VLiteLlm {| llm_model := "gpt-4o-mini"; api_key := None |})
       /\ exists a,
            globals st !! "root_agent" = Some (VAgent a)
            /\ model a = {| llm_model := "gpt-4o-mini"; api_key := None |}.
Proof.
  intros Hkey. split.
  - intros st <-. unfold os_getenv. by rewrite Hkey.
  - destruct (module_init_eq env g)
      as (gl & Heq & _ & Hmodel & (a & Hagent & Ha) & _).
    rewrite Hkey in Hmodel, Ha.
    eexists. split; [exact Heq|]. cbn [globals]. split; [exact Hmodel|].
    by exists a.
Qed.

(** *** What the import sets up *)

(** X1: whatever the environment, the import runs to its end; the key found in
    the environment, set or not, is the key of the model, and the agent
    holds that same model. *)
Theorem module_init_key_passed (env : gmap string string) (g : Rng) :
  exists st m a,
    module_init env g = (Return tt, st)
    /\ globals st !! "model" = Some (VLiteLlm m)
    /\ globals st !! "root_agent" = Some (VAgent a)
    /\ model a = m
    /\ llm_model m = "gpt-4o-mini"
    /\ api_key m = env !! "OPENAI_KEY".
Proof.
  clear randbelow_lt.
  destruct (module_init_eq env g) as (gl & Heq & _ & Hmodel & (a & Hagent & Ha) & _).
  eexists _, _, a. split; [exact Heq|]. cbn [globals].
  split; [exact Hmodel|]. split; [exact Hagent|]. by rewrite Ha.
Qed.

(** The namespace of a reachable state is the one the import built from the
    state's environment. *)
Lemma reachable_namespace st :
  reachable randbelow st ->
  globals st = globals (snd (module_init (environ st) (rng st))).
Proof.
  clear randbelow_lt.
  induction 1 as [env g st Hinit | st r st' _ IH Hcall].
  - by injection Hinit as <-.
  - apply get_dad_joke_frame in Hcall as [-> ->]. exact IH.
Qed.

(** X3: however many calls were made, the configuration is as imported: the
    agent holds the model bound to [model], whose key is the one in the
    environment, and every tool the agent lists is bound to its function. *)
Theorem reachable_configuration st :
  reachable randbelow st ->
  exists m a,
    globals st !! "model" = Some (VLiteLlm m)
    /\ globals st !! "root_agent" = Some (VAgent a)
    /\ model a = m
    /\ api_key m = environ st !! "OPENAI_KEY"
    /\ tools a <> []
    /\ Forall (fun t => globals st !! t = Some (VFunction t)) (tools a).
Proof.
  clear randbelow_lt.
  intros ->%reachable_namespace.
  eexists _, _. split; [reflexivity|]. split; [reflexivity|].
  split; [reflexivity|]. split; [reflexivity|]. split; [discriminate|].
  by repeat constructor.
Qed.

(** *** The draws behind a run of calls *)

(** X5: a run of [n] calls makes exactly [n] draws below five: it returns the
    jokes at the indices drawn, in the order drawn, and leaves the generator
    where the last draw left it, the rest of the state untouched. *)
Theorem calls_follow_draws n st :
  reachable randbelow st ->
  exists vs,
    calls randbelow n st
    = (Return vs,
       {| environ := environ st;
          globals := globals st;
          rng := advance randbelow 5 n (rng st) |})
    /\ Forall2 (fun v i => exists j, v = VStr j /\ jokes !! i = Some j)
         vs (draws randbelow 5 n (rng st)).
Proof.
  revert st. induction n as [|n IH]; intros st Hst.
  - exists []. split; [by destruct st|constructor].
  - pose proof (get_dad_joke_eq st Hst) as Hcall. cbn [length jokes] in Hcall.
    destruct (joke_at_lt (fst (randbelow 5 (rng st)))) as (j & Hj & Hlookup).
    { apply (randbelow_lt 5). lia. }
    rewrite Hj in Hcall.
    destruct (IH _ (reachable_call _ _ _ _ Hst Hcall)) as (vs & Hrest & Hvs).
    cbn [environ globals rng] in Hrest, Hvs.
    exists (VStr j :: vs). split.
    + cbn [calls advance]. unfold mbind, M_bind, bind. by rewrite Hcall, Hrest.
    + cbn [draws]. constructor; [by exists j|done].
Qed.


(** What a call returns, and where it leaves the generator, depends on the
    state only through the binding of [random] and the generator. *)
Lemma get_dad_joke_depends st1 st2 :
  globals st1 !! "random" = globals st2 !! "random" ->
  rng st1 = rng st2 ->
  fst (get_dad_joke randbelow st1) = fst (get_dad_joke randbelow st2)
  /\ rng (snd (get_dad_joke randbelow st1)) = rng (snd (get_dad_joke randbelow st2)).
Proof.
  clear randbelow_lt.
  intros Hrandom Hrng.
  unfold get_dad_joke, mbind, M_bind, bind, load_global, random_choice, raise.
  rewrite Hrandom. destruct (globals st2 !! "random") as [v|]; [|done].
  destruct (is_module "random" v); [|done].
  rewrite length_fmap. cbn [length jokes]. rewrite Hrng.
  by destruct (randbelow 5 (rng st2)) as [i g'].
Qed.

Lemma calls_depend n st1 st2 :
  globals st1 !! "random" = globals st2 !! "random" ->
  rng st1 = rng st2 ->
  fst (calls randbelow n st1) = fst (calls randbelow n st2).
Proof.
  clear randbelow_lt.
  revert st1 st2. induction n as [|n IH]; intros st1 st2 Hrandom Hrng; [done|].
  cbn [calls]. unfold mbind, M_bind, bind, ret.
  destruct (get_dad_joke_depends st1 st2 Hrandom Hrng) as [Hres Hrng'].
  destruct (get_dad_joke randbelow st1) as [r1 s1] eqn:Hcall1.
  destruct (get_dad_joke randbelow st2) as [r2 s2] eqn:Hcall2.
  apply get_dad_joke_frame in Hcall1 as [Hg1 _].
  apply get_dad_joke_frame in Hcall2 as [Hg2 _].
  cbn [fst snd] in Hres, Hrng'. subst r2.
  destruct r1 as [v|e]; [|done].
  assert (fst (calls randbelow n s1) = fst (calls randbelow n s2)) as Hrest.
  { apply IH; [by rewrite Hg1, Hg2|done]. }
  destruct (calls randbelow n s1) as [[vs1|e1] t1],
    (calls randbelow n s2) as [[vs2|e2] t2]; cbn [fst] in *; congruence.
Qed.

(** X8: the jokes a run of calls returns do not depend on the environment the
    module was imported in: with or without [OPENAI_KEY], the same
    generator gives the same jokes. *)
Theorem calls_ignore_environment (env1 env2 : gmap string string) (g : Rng) n :
  fst (calls randbelow n (snd (module_init env1 g)))
  = fst (calls randbelow n (snd (module_init env2 g))).
Proof.
  clear randbelow_lt.
  by apply calls_depend.
Qed.

End WithRandom.

(** *** The selection, draw by draw *)

(** C5: a call makes one draw below five and returns the joke at the index
    drawn.  Each joke has one index of its own: a call returns the joke
    exactly when that index is drawn, whatever the generator; so of the five
    choices of index exactly one gives the joke, and with equally likely
    choices each joke has chance one in five. *)
Theorem get_dad_joke_uniform {Rng : Type} (randbelow : nat -> Rng -> nat * Rng) :
  (forall st,
     reachable randbelow st ->
     get_dad_joke randbelow st
     = (joke_at (fst (randbelow 5 (rng st))),
        {| environ := environ st;
           globals := globals st;
           rng := snd (randbelow 5 (rng st)) |}))
  /\ forall j,
       j ∈ jokes ->
       (exists i,
          i < 5
          /\ (forall st,
                reachable randbelow st ->
                fst (get_dad_joke randbelow st) = Return (VStr j)
                <-> fst (randbelow 5 (rng st)) = i)
          /\ (forall d, get_dad_joke_at d = Return (VStr j) <-> d = i))
       /\ draws_giving j = 1
       /\ probability j = (1 # 5)%Q.
Proof.
  split; [exact (get_dad_joke_eq randbelow)|].
  intros j Hj. split; [|split].
  - destruct (list_elem_of_lookup_1 _ _ Hj) as [i Hi]. exists i.
    assert (forall R (rb : nat -> R -> nat * R) st,
      reachable rb st ->
      fst (get_dad_joke rb st) = Return (VStr j) <-> fst (rb 5 (rng st)) = i)
      as Hiff.
    { intros R rb st Hst. rewrite (get_dad_joke_eq rb st Hst).
      cbn [fst length jokes]. unfold joke_at, getitem.
      rewrite list_lookup_fmap. split.
      - destruct (jokes !! fst (rb 5 (rng st))) as [j'|] eqn:Hdraw;
          [|discriminate].
        intros [= ->]. exact (NoDup_lookup _ _ _ _ jokes_NoDup Hdraw Hi).
      - intros ->. by rewrite Hi. }
    split; [by apply lookup_lt_Some in Hi|]. split; [by apply Hiff|].
    intros d. apply (Hiff unit (choose d)).
    by apply (reachable_init (choose d) ∅ tt).
  - unfold jokes in Hj.
    repeat (apply elem_of_cons in Hj as [->|Hj]; [by vm_compute|]).
    by apply elem_of_nil in Hj.
  - unfold jokes in Hj.
    repeat (apply elem_of_cons in Hj as [->|Hj]; [by vm_compute|]).
    by apply elem_of_nil in Hj.
Qed.

(** *** Closed instances, on the round-robin generator *)

Lemma round_robin_lt n g : 0 < n -> fst (round_robin n g) < n.
Proof. intros Hn. cbn. apply Nat.mod_upper_bound. lia. Qed.

Lemma imported_reachable : reachable round_robin imported.
Proof. apply (reachable_init round_robin ∅ 0). by vm_compute. Qed.

Lemma get_dad_joke_membership_witness :
  reachable round_robin imported
  /\ exists vs st',
       calls round_robin 7 imported = (Return vs, st')
       /\ length vs = 7
       /\ Forall (fun v => exists j, v = VStr j /\ j ∈ jokes) vs.
Proof.
  split; [exact imported_reachable|].
  apply (get_dad_joke_membership round_robin round_robin_lt).
  exact imported_reachable.
Defined.

Lemma get_dad_joke_no_failure_witness :
  reachable round_robin imported
  /\ exists j st', get_dad_joke round_robin imported = (Return (VStr j), st').
Proof.
  split; [exact imported_reachable|].
  apply (get_dad_joke_no_failure round_robin round_robin_lt).
  exact imported_reachable.
Defined.

Lemma get_dad_joke_uniform_witness :
  "Why did the bicycle fall over? Because it was two-tired!" ∈ jokes
  /\ draws_giving "Why did the bicycle fall over? Because it was two-tired!" = 1
  /\ probability "Why did the bicycle fall over? Because it was two-tired!"
     = (1 # 5)%Q.
Proof.
  assert ("Why did the bicycle fall over? Because it was two-tired!" ∈ jokes)
    as Hin by (unfold jokes; repeat constructor).
  split; [exact Hin|].
  exact (proj2 (proj2 (get_dad_joke_uniform round_robin) _ Hin)).
Defined.

Lemma jokes_local_to_call_witness :
  reachable round_robin imported
  /\ ~ module_level imported (VList (VStr <$> jokes)).
Proof.
  split; [exact imported_reachable|].
  apply (jokes_local_to_call round_robin round_robin_lt).
  exact imported_reachable.
Defined.

(** C7, as the specification words it, fails: after the import no
    module-level name holds the joke list, and the name [jokes] is unbound
    in the module namespace. *)
Lemma jokes_not_module_level :
  globals imported !! "jokes" = None
  /\ ~ module_level imported (VList (VStr <$> jokes)).
Proof.
  split; [by vm_compute|].
  intros [x Hx].
  exact (proj2 (reachable_globals round_robin imported imported_reachable) x _ Hx).
Qed.

Lemma module_init_key_unset_witness :
  (∅ : gmap string string) !! "OPENAI_KEY" = None
  /\ exists st : @State nat,
       module_init ∅ 0 = (Return tt, st)
       /\ globals st !! "model"
          = Some (VLiteLlm {| llm_model := "gpt-4o-mini"; api_key := None |})
       /\ exists a,
            globals st !! "root_agent" = Some (VAgent a)
            /\ model a = {| llm_model := "gpt-4o-mini"; api_key := None |}.
Proof.
  split; [reflexivity|].
  apply (module_init_key_unset ∅ 0). reflexivity.
Defined.

Lemma reachable_configuration_witness :
  reachable round_robin imported
  /\ exists m a,
       globals imported !! "model" = Some (VLiteLlm m)
       /\ globals imported !! "root_agent" = Some (VAgent a)
       /\ model a = m
       /\ api_key m = environ imported !! "OPENAI_KEY"
       /\ tools a <> []
       /\ Forall (fun t => globals imported !! t = Some (VFunction t)) (tools a).
Proof.
  split; [exact imported_reachable|].
  apply (reachable_configuration round_robin imported). exact imported_reachable.
Defined.

Lemma calls_follow_draws_witness :
  reachable round_robin imported
  /\ exists vs,
       calls round_robin 7 imported
       = (Return vs,
          {| environ := environ imported;
             globals := globals imported;
             rng := advance round_robin 5 7 (rng imported) |})
       /\ Forall2 (fun v i => exists j, v = VStr j /\ jokes !! i = Some j)
            vs (draws round_robin 5 7 (rng imported)).
Proof.
  split; [exact imported_reachable|].
  apply (calls_follow_draws round_robin round_robin_lt 7 imported).
  exact imported_reachable.
Defined.


End LitellmAgentProofs.

(** ** Properties of the email schema *)

Module EmailAgentProofs.
Import Pydantic EmailAgent.

(** *** Validation against [EmailContent], field by field *)

(** What validation does with an object, by the two lookups it makes. *)
Lemma model_validate_EmailContent (data : gmap string json) :
  model_validate EmailContent (JObj data)
  = match validate_fields (model_fields EmailContent) data with
    | ([], values) => Return {| instance_of := "EmailContent"; attributes := values |}
    | (errs, _) => Raise {| title := "EmailContent"; errors := errs |}
    end.
Proof. reflexivity. Qed.

Lemma validate_fields_EmailContent (data : gmap string json) :
  validate_fields (model_fields EmailContent) data
  = let '(errs, values) :=
      match data !! "body" with
      | Some (JStr b) => ([], <["body" := JStr b]> ∅)
      | Some v => ([{| type := string_type; loc := ["body"]; input := v |}], ∅)
      | None => ([{| type := missing; loc := ["body"]; input := JObj data |}], ∅)
      end in
    match data !! "subject" with
    | Some (JStr s) => (errs, <["subject" := JStr s]> values)
    | Some v => ({| type := string_type; loc := ["subject"]; input := v |} :: errs, values)
    | None => ({| type := missing; loc := ["subject"]; input := JObj data |} :: errs, values)
    end.
Proof.
  cbn [validate_fields model_fields EmailContent Field annotation default].
  destruct (data !! "body") as [[]|], (data !! "subject") as [[]|]; reflexivity.
Qed.

(** A key that is no field of the model changes neither the validated
    values nor which errors are reported. *)
Lemma validate_fields_extra fields (data : gmap string json) x v :
  x ∉ fst <$> fields ->
  snd (validate_fields fields (<[x := v]> data)) = snd (validate_fields fields data)
  /\ error_key <$> fst (validate_fields fields (<[x := v]> data))
     = error_key <$> fst (validate_fields fields data).
Proof.
  induction fields as [|[y info] rest IH]; intros Hx; [done|].
  apply not_elem_of_cons in Hx as [Hxy Hrest]. cbn in Hxy.
  destruct (IH Hrest) as [IHv IHe]. cbn [validate_fields].
  rewrite lookup_insert_ne by done.
  destruct (validate_fields rest (<[x:=v]> data)) as [errs' values'].
  destruct (validate_fields rest data) as [errs values].
  cbn in IHv, IHe. subst values'.
  destruct (data !! y) as [w|].
  - destruct (validate_type (annotation info) w); cbn; [done|].
    by rewrite IHe.
  - destruct (default info); cbn; [done|]. by rewrite IHe.
Qed.

Lemma model_validate_extra cls (data : gmap string json) x v m :
  x ∉ fst <$> model_fields cls ->
  model_validate cls (JObj data) = Return m ->
  model_validate cls (JObj (<[x := v]> data)) = Return m.
Proof.
  intros Hx. unfold model_validate.
  destruct (validate_fields_extra _ data x v Hx) as [Hv He].
  destruct (validate_fields (model_fields cls) (<[x:=v]> data)) as [errs' values'].
  destruct (validate_fields (model_fields cls) data) as [errs values].
  cbn in Hv, He. subst values'.
  destruct errs; [|discriminate]. by destruct errs'.
Qed.

(** C2: an object without [body] does not validate: the violation carries a
    line of kind [missing] naming [body], and no instance is produced; for
    [{"subject": "Hi"}] that line is the whole error. *)
Theorem missing_body_rejected :
  (forall data : gmap string json,
     data !! "body" = None ->
     exists errs,
       model_validate EmailContent (JObj data)
       = Raise {| title := "EmailContent"; errors := errs |}
       /\ {| type := missing; loc := ["body"]; input := JObj data |} ∈ errs)
  /\ model_validate EmailContent (JObj {[ "subject" := JStr "Hi" ]})
     = Raise {| title := "EmailContent";
                errors := [ {| type := missing; loc := ["body"];
                               input := JObj {[ "subject" := JStr "Hi" ]} |} ] |}.
Proof.
  split; [|by vm_compute].
  intros data Hbody.
  rewrite model_validate_EmailContent, validate_fields_EmailContent, Hbody.
  destruct (data !! "subject") as [[]|]; eexists; (split; [reflexivity|]);
    set_solver.
Qed.

(** C3: an object whose [subject] is not a string does not validate: the
    violation carries a line of kind [string_type] naming [subject]; for
    [{"subject": 123, "body": "Hello"}] that line is the whole error. *)
Theorem number_subject_rejected :
  (forall (data : gmap string json) v,
     data !! "subject" = Some v ->
     (forall s, v <> JStr s) ->
     exists errs,
       model_validate EmailContent (JObj data)
       = Raise {| title := "EmailContent"; errors := errs |}
       /\ {| type := string_type; loc := ["subject"]; input := v |} ∈ errs)
  /\ model_validate EmailContent
       (JObj (<["subject" := JInt 123]> {[ "body" := JStr "Hello" ]}))
     = Raise {| title := "EmailContent";
                errors := [ {| type := string_type; loc := ["subject"];
                               input := JInt 123 |} ] |}.
Proof.
  split; [|by vm_compute].
  intros data v Hsubject Hv.
  rewrite model_validate_EmailContent, validate_fields_EmailContent, Hsubject.
  destruct v as [| | |s| |]; [..|by destruct (Hv s)| |];
    destruct (data !! "body") as [[]|]; eexists; (split; [reflexivity|]);
    set_solver.
Qed.

(** C4: [{"subject": "Hi", "body": "Hello"}] validates, and the accessors of
    the instance give ["Hi"] and ["Hello"]. *)
Theorem subject_and_body_accepted :
  exists m,
    model_validate EmailContent
      (JObj (<["subject" := JStr "Hi"]> {[ "body" := JStr "Hello" ]}))
    = Return m
    /\ subject m = Some (JStr "Hi")
    /\ body m = Some (JStr "Hello").
Proof. eexists. by vm_compute. Qed.

(** C10: a key other than [subject] and [body] is ignored: an object that
    validates still validates with the key added, to the same instance; so
    [{"subject": "Hi", "body": "Hello", "attachments": []}] gives the
    instance of [{"subject": "Hi", "body": "Hello"}]. *)
Theorem extra_fields_ignored :
  (forall (data : gmap string json) x v m,
     x <> "subject" -> x <> "body" ->
     model_validate EmailContent (JObj data) = Return m ->
     model_validate EmailContent (JObj (<[x := v]> data)) = Return m)
  /\ exists m,
       model_validate EmailContent
         (JObj (<["attachments" := JArr []]>
                  (<["subject" := JStr "Hi"]> {[ "body" := JStr "Hello" ]})))
       = Return m
       /\ model_validate EmailContent
            (JObj (<["subject" := JStr "Hi"]> {[ "body" := JStr "Hello" ]}))
          = Return m
       /\ subject m = Some (JStr "Hi")
       /\ body m = Some (JStr "Hello").
Proof.
  split.
  - intros data x v m Hs Hb. apply model_validate_extra. cbn.
    rewrite !not_elem_of_cons. split_and!; [done..|]. apply not_elem_of_nil.
  - eexists. by vm_compute.
Qed.

Lemma missing_body_rejected_witness :
  ({[ "subject" := JStr "Hi" ]} : gmap string json) !! "body" = None
  /\ exists errs,
       model_validate EmailContent (JObj {[ "subject" := JStr "Hi" ]})
       = Raise {| title := "EmailContent"; errors := errs |}
       /\ {| type := missing; loc := ["body"];
             input := JObj {[ "subject" := JStr "Hi" ]} |} ∈ errs.
Proof.
  split; [reflexivity|].
  apply (proj1 missing_body_rejected). reflexivity.
Defined.

Lemma number_subject_rejected_witness :
  (<["subject" := JInt 123]> {[ "body" := JStr "Hello" ]} : gmap string json)
    !! "subject" = Some (JInt 123)
  /\ exists errs,
       model_validate EmailContent
         (JObj (<["subject" := JInt 123]> {[ "body" := JStr "Hello" ]}))
       = Raise {| title := "EmailContent"; errors := errs |}
       /\ {| type := string_type; loc := ["subject"]; input := JInt 123 |} ∈ errs.
Proof.
  split; [reflexivity|].
  apply (proj1 number_subject_rejected); [reflexivity|].
  intros s. discriminate.
Defined.

Lemma extra_fields_ignored_witness :
  model_validate EmailContent
    (JObj (<["attachments" := JArr []]>
             (<["subject" := JStr "Hi"]> {[ "body" := JStr "Hello" ]})))
  = Return {| instance_of := "EmailContent";
              attributes := <["subject" := JStr "Hi"]> {[ "body" := JStr "Hello" ]} |}.
Proof.
  apply (proj1 extra_fields_ignored); [discriminate|discriminate|].
  vm_compute. reflexivity.
Defined.

(** *** What [EmailContent] accepts, and what it reports *)

(** X9: a value validates exactly when it is an object whose [subject] and
    [body] are both strings, of any length and content; the instance then
    holds these two strings and nothing else. *)
Theorem EmailContent_accepts_iff v m :
  model_validate EmailContent v = Return m
  <-> exists (data : gmap string json) s b,
        v = JObj data
        /\ data !! "subject" = Some (JStr s)
        /\ data !! "body" = Some (JStr b)
        /\ m = {| instance_of := "EmailContent";
                  attributes := <["subject" := JStr s]> (<["body" := JStr b]> ∅) |}.
Proof.
  split.
  - destruct v as [| | | | |data]; try discriminate.
    rewrite model_validate_EmailContent, validate_fields_EmailContent.
    destruct (data !! "body") as [[| | |b| |]|] eqn:Hbody;
      destruct (data !! "subject") as [[| | |s| |]|] eqn:Hsubject;
      try discriminate.
    intros [= <-]. by exists data, s, b.
  - intros (data & s & b & -> & Hsubject & Hbody & ->).
    by rewrite model_validate_EmailContent, validate_fields_EmailContent,
      Hbody, Hsubject.
Qed.

(** Every error line comes from a declared field that is absent without a
    default, or present with a value its annotation refuses. *)
Lemma validate_fields_sound fields (data : gmap string json) l :
  l ∈ fst (validate_fields fields data) ->
  exists x info,
    (x, info) ∈ fields
    /\ loc l = [x]
    /\ (data !! x = None /\ default info = None
        /\ type l = missing /\ input l = JObj data
        \/ data !! x = Some (input l)
           /\ validate_type (annotation info) (input l) = Raise (type l)).
Proof.
  induction fields as [|[y info] rest IH]; cbn [validate_fields].
  - by intros ?%elem_of_nil.
  - destruct (validate_fields rest data) as [errs values]. cbn [fst] in IH.
    assert (l ∈ errs -> exists x info',
      (x, info') ∈ (y, info) :: rest /\ loc l = [x]
      /\ (data !! x = None /\ default info' = None
          /\ type l = missing /\ input l = JObj data
          \/ data !! x = Some (input l)
             /\ validate_type (annotation info') (input l) = Raise (type l)))
      as Hrest.
    { intros (x & info' & Hin & Hl)%IH. exists x, info'.
      split; [by apply list_elem_of_further|done]. }
    destruct (data !! y) as [v|] eqn:Hy.
    + destruct (validate_type (annotation info) v) as [v'|e] eqn:Hv; [done|].
      intros [->|Hl]%elem_of_cons; [|by apply Hrest].
      exists y, info. split; [by apply list_elem_of_here|]. cbn. eauto.
    + destruct (default info) as [dflt|] eqn:Hd; [done|].
      intros [->|Hl]%elem_of_cons; [|by apply Hrest].
      exists y, info. split; [by apply list_elem_of_here|]. cbn. eauto 6.
Qed.

(** Every declared field that is absent without a default, or present with
    a value its annotation refuses, gets an error line. *)
Lemma validate_fields_complete fields (data : gmap string json) x info :
  (x, info) ∈ fields ->
  (data !! x = None /\ default info = None
   \/ exists v e, data !! x = Some v /\ validate_type (annotation info) v = Raise e) ->
  exists l, l ∈ fst (validate_fields fields data) /\ loc l = [x].
Proof.
  intros Hin Hbad.
  induction fields as [|[y info'] rest IH]; [by apply elem_of_nil in Hin|].
  cbn [validate_fields].
  destruct (validate_fields rest data) as [errs values]. cbn [fst] in IH.
  assert ((x, info) ∈ rest -> exists l,
    l ∈ fst (match data !! y with
             | Some v =>
                 match validate_type (annotation info') v with
                 | Return v' => (errs, <[y := v']> values)
                 | Raise e => ({| type := e; loc := [y]; input := v |} :: errs, values)
                 end
             | None =>
                 match default info' with
                 | Some d => (errs, <[y := d]> values)
                 | None =>
                     ({| type := missing; loc := [y]; input := JObj data |} :: errs,
                      values)
                 end
             end) /\ loc l = [x]) as Hrest.
  { intros (l & Hl & Hloc)%IH. exists l. split; [|done].
    destruct (data !! y) as [v|].
    - destruct (validate_type (annotation info') v); [done|].
      by apply list_elem_of_further.
    - destruct (default info'); [done|]. by apply list_elem_of_further. }
  apply elem_of_cons in Hin as [[= <- <-]|Hin]; [|by apply Hrest].
  destruct Hbad as [[-> ->]|(v & e & -> & ->)];
    eexists; (split; [apply list_elem_of_here|reflexivity]).
Qed.

(** X10: validation does not stop at the first bad field: when an object is
    rejected, a field is named by an error line exactly when it is not a
    string, and every line is about [subject] or [body], of kind [missing]
    with the whole object as input when the key is absent, of kind
    [string_type] with the offending value as input otherwise. *)
Theorem EmailContent_reports_every_field (data : gmap string json) e :
  model_validate EmailContent (JObj data) = Raise e ->
  title e = "EmailContent"
  /\ (forall x,
        x = "subject" \/ x = "body" ->
        (exists l, l ∈ errors e /\ loc l = [x])
        <-> ~ exists s, data !! x = Some (JStr s))
  /\ (forall l,
        l ∈ errors e ->
        exists x,
          (x = "subject" \/ x = "body")
          /\ loc l = [x]
          /\ (type l = missing /\ data !! x = None /\ input l = JObj data
              \/ type l = string_type /\ data !! x = Some (input l))).
Proof.
  intros Hraise.
  assert (title e = "EmailContent"
          /\ errors e = fst (validate_fields (model_fields EmailContent) data))
    as [Htitle ->].
  { rewrite model_validate_EmailContent in Hraise.
    destruct (validate_fields (model_fields EmailContent) data) as [[|l errs] values];
      [discriminate|]. by injection Hraise as <-. }
  assert (forall l,
    l ∈ fst (validate_fields (model_fields EmailContent) data) ->
    exists x,
      (x = "subject" \/ x = "body") /\ loc l = [x]
      /\ (type l = missing /\ data !! x = None /\ input l = JObj data
          \/ type l = string_type /\ data !! x = Some (input l)
             /\ forall s, input l <> JStr s)) as Hsound.
  { intros l (x & info & Hin & Hloc & Hcase)%validate_fields_sound.
    exists x. split.
    - cbn in Hin. repeat (apply elem_of_cons in Hin as [[= -> _]|Hin]; [by eauto|]).
      by apply elem_of_nil in Hin.
    - split; [done|]. destruct Hcase as [(? & _ & ? & ?)|[Hx Hv]]; [by left|].
      right. destruct (annotation info).
      destruct (input l); try discriminate; by injection Hv as <-. }
  split; [done|]. split.
  - intros x Hx. split.
    + intros (l & (x' & _ & Hloc' & Hcase)%Hsound & Hloc) (s & Hs).
      rewrite Hloc' in Hloc. injection Hloc as ->.
      destruct Hcase as [(_ & Hnone & _)|(_ & Hsome & Hns)]; [congruence|].
      rewrite Hs in Hsome. injection Hsome as Heq. by apply (Hns s).
    + intros Hns.
      apply (validate_fields_complete _ _ x (Field None
               (if String.eqb x "subject" then "The subject of the email"
                else "The body of the email") str)).
      { destruct Hx as [-> | ->]; cbn; set_solver. }
      destruct (data !! x) as [v|] eqn:Hv; [right|by left].
      exists v, string_type. split; [done|].
      destruct v; try reflexivity. destruct Hns. by eexists.
  - intros l (x & Hx & Hloc & Hcase)%Hsound. exists x.
    split; [done|]. split; [done|].
    destruct Hcase as [?|(? & ? & _)]; [by left|by right].
Qed.

(** X11: validation is idempotent: the attributes of a validated instance, taken
    as an object, validate to that same instance. *)
Theorem EmailContent_revalidates v m :
  model_validate EmailContent v = Return m ->
  model_validate EmailContent (JObj (attributes m)) = Return m.
Proof.
  destruct v as [| | | | |data]; try discriminate.
  rewrite model_validate_EmailContent, validate_fields_EmailContent.
  destruct (data !! "body") as [[| | |b| |]|];
    destruct (data !! "subject") as [[| | |s| |]|]; try discriminate.
  intros [= <-]. reflexivity.
Qed.

(** *** The descriptor and the validator agree *)

(** When no field is in error, the validated values are those of the
    declared fields. *)
Lemma validate_fields_dom fields (data : gmap string json) :
  fst (validate_fields fields data) = [] ->
  dom (snd (validate_fields fields data)) = list_to_set (fst <$> fields).
Proof.
  induction fields as [|[x info] rest IH]; cbn [validate_fields].
  - intros _. cbn. apply dom_empty_L.
  - destruct (validate_fields rest data) as [errs values]. cbn [fst snd] in IH.
    destruct (data !! x) as [v|].
    + destruct (validate_type (annotation info) v); [|discriminate].
      cbn [fst snd]. intros Herrs. by rewrite dom_insert_L, IH.
    + destruct (default info); [|discriminate].
      cbn [fst snd]. intros Herrs. by rewrite dom_insert_L, IH.
Qed.

(** The [properties] of the descriptor are keyed by the declared fields. *)
Lemma model_json_schema_dom cls :
  dom (properties_of (model_json_schema cls)) = list_to_set (fst <$> model_fields cls).
Proof.
  unfold model_json_schema, properties_of, with_key.
  destruct (required_fields (model_fields cls)).
  - rewrite lookup_insert_eq, dom_list_to_map_L, <-list_fmap_compose.
    done.
  - rewrite lookup_insert_ne by done.
    rewrite lookup_insert_eq, dom_list_to_map_L, <-list_fmap_compose.
    done.
Qed.

(** X12: the class declaration is the one source of both: the attributes of any
    validated instance are exactly the properties its schema descriptor
    lists; for [EmailContent] these are [subject] and [body]. *)
Theorem instance_matches_schema cls v m :
  model_validate cls v = Return m ->
  dom (attributes m) = dom (properties_of (model_json_schema cls))
  /\ (cls = EmailContent -> dom (attributes m) = {[ "subject"; "body" ]}).
Proof.
  intros Hvalid.
  assert (dom (attributes m) = list_to_set (fst <$> model_fields cls)) as Hdom.
  { unfold model_validate in Hvalid.
    destruct v as [| | | | |data]; try discriminate.
    pose proof (validate_fields_dom (model_fields cls) data) as Hfields.
    destruct (validate_fields (model_fields cls) data) as [[|l errs] values];
      [|discriminate].
    injection Hvalid as <-. by apply Hfields. }
  split.
  - by rewrite Hdom, model_json_schema_dom.
  - intros ->. rewrite Hdom. cbn. set_solver.
Qed.

(** *** Closed instances *)

Lemma EmailContent_accepts_iff_witness :
  model_validate EmailContent
    (JObj (<["subject" := JStr ""]> (<["body" := JStr ""]> ∅)))
  = Return {| instance_of := "EmailContent";
              attributes := <["subject" := JStr ""]> (<["body" := JStr ""]> ∅) |}.
Proof.
  apply EmailContent_accepts_iff.
  exists (<["subject" := JStr ""]> (<["body" := JStr ""]> ∅)), "", "".
  repeat split; reflexivity.
Defined.

Lemma EmailContent_reports_every_field_witness :
  model_validate EmailContent (JObj ∅)
  = Raise {| title := "EmailContent";
             errors := [ {| type := missing; loc := ["subject"]; input := JObj ∅ |};
                         {| type := missing; loc := ["body"]; input := JObj ∅ |} ] |}
  /\ forall x,
       x = "subject" \/ x = "body" ->
       (exists l,
          l ∈ [ {| type := missing; loc := ["subject"]; input := JObj ∅ |};
                {| type := missing; loc := ["body"]; input := JObj ∅ |} ]
          /\ loc l = [x])
       <-> ~ exists s, (∅ : gmap string json) !! x = Some (JStr s).
Proof.
  assert (model_validate EmailContent (JObj ∅)
          = Raise {| title := "EmailContent";
                     errors := [ {| type := missing; loc := ["subject"];
                                    input := JObj ∅ |};
                                 {| type := missing; loc := ["body"];
                                    input := JObj ∅ |} ] |}) as Hraise
    by reflexivity.
  split; [exact Hraise|].
  apply (EmailContent_reports_every_field ∅ _ Hraise).
Defined.

Lemma EmailContent_revalidates_witness :
  model_validate EmailContent
    (JObj (<["subject" := JStr "Hi"]> (<["body" := JStr "Hello"]> ∅)))
  = model_validate EmailContent
      (JObj (<["attachments" := JArr []]>
               (<["subject" := JStr "Hi"]> (<["body" := JStr "Hello"]> ∅)))).
Proof.
  assert (model_validate EmailContent
            (JObj (<["attachments" := JArr []]>
                     (<["subject" := JStr "Hi"]> (<["body" := JStr "Hello"]> ∅))))
          = Return {| instance_of := "EmailContent";
                      attributes :=
                        <["subject" := JStr "Hi"]> (<["body" := JStr "Hello"]> ∅) |})
    as Hvalid by (vm_compute; reflexivity).
  rewrite Hvalid.
  exact (EmailContent_revalidates _ _ Hvalid).
Defined.

Lemma instance_matches_schema_witness :
  dom (<["subject" := JStr "Hi"]> (<["body" := JStr "Hello"]> (∅ : gmap string json)))
  = dom (properties_of (model_json_schema EmailContent)).
Proof.
  refine (proj1 (instance_matches_schema EmailContent
    (JObj (<["subject" := JStr "Hi"]> (<["body" := JStr "Hello"]> ∅)))
    {| instance_of := "EmailContent";
       attributes := <["subject" := JStr "Hi"]> (<["body" := JStr "Hello"]> ∅) |}
    _)).
  vm_compute. reflexivity.
Defined.

End EmailAgentProofs.
